(** * Resume analyzer: the scoring and suggestion engine of [app.py]

    A shallow embedding of the pure core of [app.py] (skill extraction,
    project detection, formatting heuristics, score composition and
    suggestion generation) together with the properties its specification
    states about it.

    - A Python [str] is a sequence of Unicode code points: [list N].
    - A Python [set] of strings is a [gset str]; [sorted] is a stable
      merge sort on the code-point order.
    - Python numbers are either [int] (here [Z]) or [float] (IEEE binary64,
      here Rocq's primitive floats), see [pynum].
    - A function that can raise returns [option].
    - The route [home] and [extract_text_from_pdf] are embedded over what
      Flask and pdfplumber hand them: the request method, the uploaded file
      with its name, and the text of each page. *)

From Stdlib Require Import ZArith NArith String Ascii Floats.
From stdpp Require Import base decidable option list sorting gmap.

Local Open Scope Z_scope.

(** ** Python strings *)

Definition str : Type := list N.

(** An ASCII literal as a [str]. *)
Definition str_lit (s : string) : str :=
  map N_of_ascii (list_ascii_of_string s).

(** [text.startswith(prefix)]. *)
Fixpoint startswith (prefix text : str) : bool :=
  match prefix, text with
  | [], _ => true
  | _ :: _, [] => false
  | p :: prefix', c :: text' => (p =? c)%N && startswith prefix' text'
  end.

(** [sub in text] on strings: [sub] occurs as a contiguous run of [text]. *)
Fixpoint str_in (sub text : str) : bool :=
  startswith sub text ||
  match text with
  | [] => false
  | _ :: text' => str_in sub text'
  end.

(** [x < y] on strings: code point by code point, a proper prefix first. *)
Fixpoint str_ltb (x y : str) : bool :=
  match x, y with
  | _, [] => false
  | [], _ :: _ => true
  | a :: x', b :: y' => (a <? b)%N || ((a =? b)%N && str_ltb x' y')
  end.

Definition str_lt (x y : str) : Prop := str_ltb x y = true.
(** [not (y < x)], the test a stable sort makes before it keeps [x] first. *)
Definition str_le (x y : str) : Prop := str_ltb y x = false.

#[global] Instance str_lt_dec x y : Decision (str_lt x y).
Proof. unfold str_lt. apply _. Defined.
#[global] Instance str_le_dec x y : Decision (str_le x y).
Proof. unfold str_le. apply _. Defined.

(** [sorted(l)] for a list of strings. *)
Definition sorted (l : list str) : list str := merge_sort str_le l.

(** [sep.join(l)]. *)
Fixpoint join (sep : str) (l : list str) : str :=
  match l with
  | [] => []
  | [x] => x
  | x :: l' => x ++ sep ++ join sep l'
  end.

(** [c.isspace()] for one code point: the Unicode white space that
    [str.split()] separates on. *)
Definition isspace (c : N) : bool :=
  ((9 <=? c) && (c <=? 13) || (28 <=? c) && (c <=? 32) ||
   (c =? 133) || (c =? 160) || (c =? 5760) ||
   (8192 <=? c) && (c <=? 8202) ||
   (c =? 8232) || (c =? 8233) || (c =? 8239) || (c =? 8287) ||
   (c =? 12288))%N.

(** [text.split()] with no argument: the maximal runs of code points that
    are not white space. [word] holds the run being read, reversed. *)
Fixpoint split_from (word : str) (text : str) : list str :=
  match text with
  | [] => if word is [] then [] else [reverse word]
  | c :: text' =>
      if isspace c
      then (if word is [] then split_from [] text'
            else reverse word :: split_from [] text')
      else split_from (c :: word) text'
  end.

Definition split (text : str) : list str := split_from [] text.

(** [len(l)] as a Python [int]. *)
Definition len {A} (l : list A) : Z := Z.of_nat (length l).

(** [sum(l)] over Python [int]s. *)
Definition sum (l : list Z) : Z := foldl Z.add 0 l.

(** ** Python numbers *)

(** A Python number: an [int] or a [float]. *)
Inductive pynum : Type :=
  | PyInt (z : Z)
  | PyFloat (f : float).

(** [float(z)]: the double nearest to the integer, ties to even. *)
Definition float_of_Z (z : Z) : float :=
  SF2Prim (binary_normalize prec emax z 0 false).

Definition to_float (x : pynum) : float :=
  match x with
  | PyInt z => float_of_Z z
  | PyFloat f => f
  end.

(** [x + y] and [x * y]: on two [int]s the exact integer, otherwise the
    IEEE operation on the operands as doubles. *)
Definition py_add (x y : pynum) : pynum :=
  match x, y with
  | PyInt a, PyInt b => PyInt (a + b)
  | _, _ => PyFloat (to_float x + to_float y)
  end.

Definition py_mul (x y : pynum) : pynum :=
  match x, y with
  | PyInt a, PyInt b => PyInt (a * b)
  | _, _ => PyFloat (to_float x * to_float y)
  end.

Definition is_zero (x : pynum) : bool :=
  match x with
  | PyInt z => z =? 0
  | PyFloat f => PrimFloat.eqb f 0
  end.

(** [x / y], true division: [ZeroDivisionError] ([None]) on a zero divisor,
    otherwise a [float]. On two [int]s Python rounds the exact quotient once;
    for operands below [2^53], as every operand here is, that is the IEEE
    quotient of the operands as doubles. *)
Definition py_truediv (x y : pynum) : option pynum :=
  if is_zero y then None
  else Some (PyFloat (to_float x / to_float y)).

(** The integer nearest to [num / den], ties to the even one ([0 < den]). *)
Definition round_half_even (num den : Z) : Z :=
  let q := num / den in
  let r := num mod den in
  if 2 * r <? den then q
  else if den <? 2 * r then q + 1
  else if Z.even q then q else q + 1.

(** [round(f, 1)] on a [float]. CPython rounds the exact value of the double
    to one decimal, ties to even, and returns the double nearest to that
    decimal [q / 10]. Below [2^49] the integer [q] is a double and the IEEE
    quotient [q / 10.0] is that nearest double; from [2^49] on, doubles are
    at least [1/8] apart and the result is [f] itself, as it is for zeros,
    infinities and NaN. *)
Definition float_round1 (f : float) : float :=
  match Prim2SF f with
  | S754_finite s m e =>
      if (0 <=? e) || (2 ^ 49 <=? Z.pos m / 2 ^ (- e)) then f
      else
        let q := round_half_even (Z.pos m * 10) (2 ^ (- e)) in
        let r := (float_of_Z q / float_of_Z 10)%float in
        if s then (- r)%float else r
  | _ => f
  end.

(** [round(x, 1)]: an [int] is returned as it is. *)
Definition round1 (x : pynum) : pynum :=
  match x with
  | PyInt z => PyInt z
  | PyFloat f => PyFloat (float_round1 f)
  end.

(** [x <= y]. *)
Definition py_leb (x y : pynum) : bool :=
  match x, y with
  | PyInt a, PyInt b => a <=? b
  | _, _ => PrimFloat.leb (to_float x) (to_float y)
  end.

(** Truth value of a list: [bool(l)]. *)
Definition truthy {A} (l : list A) : bool :=
  match l with
  | [] => false
  | _ :: _ => true
  end.

(** ** Module globals of [app.py] *)

(** The two vocabularies are module globals, read when a function runs:
    every function that reads one takes the globals as its first argument. *)
Record globals : Type := {
  KNOWN_SKILLS : list str;
  REQUIRED_SKILLS : list str
}.

(** The globals as the module sets them. *)
Definition app_globals : globals := {|
  KNOWN_SKILLS := map str_lit [
    "python"; "java"; "c"; "c++";
    "html"; "css"; "javascript"; "react";
    "node"; "node.js"; "flask"; "django";
    "sql"; "mysql"; "postgres"; "mongodb";
    "machine learning"; "ml"; "deep learning";
    "data analysis"; "data analytics";
    "pandas"; "numpy"; "scikit-learn";
    "git"; "github";
    "aws"; "azure"; "gcp"; "cloud";
    "docker"; "kubernetes"
  ]%string;
  REQUIRED_SKILLS := map str_lit [
    "python"; "html"; "css"; "javascript";
    "sql"; "git"; "github"; "machine learning"
  ]%string
|}.

(** The literals of [has_projects], [formatting_score] and
    [generate_suggestions]. *)
Definition keywords : list str := map str_lit [
  "project"; "projects";
  "built"; "created"; "developed"; "designed";
  "implemented"; "engineered"; "deployed";
  "application"; "app"; "system"; "model"
]%string.

(** U+2022 (the bullet), [-] and [*]. *)
Definition bullet_chars : list str := [[8226%N]; str_lit "-"; str_lit "*"].

Definition sections : list str := map str_lit [
  "education"; "experience"; "skills"; "projects"; "achievements"
]%string.

Definition MISSING_SKILLS_PREFIX : str :=
  str_lit "Try to add or highlight these important skills if you know them: ".

(** The dash of [2-3] in the source is U+2013. *)
Definition NO_PROJECTS_MSG : str :=
  str_lit "Add a 'Projects' section with 2" ++ [8211%N] ++
  str_lit "3 good projects. Mention what you built, tools/technologies used, and your role.".

Definition TOO_SHORT_MSG : str :=
  str_lit "Your resume looks quite short. Add more details about your skills, projects, and achievements.".

Definition TOO_LONG_MSG : str :=
  str_lit "Your resume seems long. For a fresher, try to keep it to 1 page with the most important points.".

Definition NO_SKILLS_MSG : str :=
  str_lit "I could not find a clear 'Skills' section. Add one and list your tools, languages, and frameworks.".

Definition NO_BULLETS_MSG : str :=
  str_lit "Use bullet points to list skills, projects, and experience instead of big paragraphs. This makes the resume easier to read.".

Definition LOOKS_GOOD_MSG : str :=
  str_lit "Your resume looks good! You can still refine wording and customize it for each job description.".

(** ** Uploads and pages *)

(** [text.endswith(suffix)]. *)
Definition endswith (suffix text : str) : bool :=
  startswith (reverse suffix) (reverse text).

(** [text.lstrip()] and [text.strip()] with no argument: the text without
    the white space at its start, and at both ends. *)
Fixpoint lstrip (text : str) : str :=
  match text with
  | [] => []
  | c :: text' => if isspace c then lstrip text' else text
  end.

Definition strip (text : str) : str :=
  reverse (lstrip (reverse (lstrip text))).

(** An uploaded file as the code uses it: its name, and what pdfplumber
    makes of its content, [None] when [pdfplumber.open] raises and otherwise,
    page by page, what [page.extract_text()] returns (a string or [None]).
    As a werkzeug [FileStorage], its truth value is that of its name. *)
Record FileStorage : Type := {
  filename : str;
  pdf_pages : option (list (option str))
}.

(** What [home] hands to [render_template]: [index.html] with or without an
    [error], or [result.html] with its seven values. *)
Inductive response : Type :=
  | index_html (error : option str)
  | result_html (score skill_score : pynum) (project_score format_score : Z)
                (skills missing_skills suggestions : list str).

Definition UPLOAD_PDF_MSG : str := str_lit "Please upload a PDF file.".

Definition ONLY_PDF_MSG : str :=
  str_lit "Only PDF files (.pdf) are supported right now.".

Definition NO_TEXT_MSG : str :=
  str_lit "I couldn't read any text from this PDF.".

(** [extract_text_from_pdf]: the texts of the pages that have one, each
    followed by a newline (U+000A); [None] when the file cannot be opened. *)
Definition extract_text_from_pdf (file_obj : FileStorage) : option str :=
  pdf ← pdf_pages file_obj;
  Some (foldl (fun text page_text =>
                 match page_text with
                 | Some page_text =>
                     if truthy page_text then text ++ (page_text ++ [10%N])
                     else text
                 | None => text
                 end)
              [] pdf).

(** The table used on ASCII-only examples: it leaves every code point above
    127 as it is. *)
Definition no_unicode_lower (before : str) (c : N) (after : str) : str := [c].

(** The sample resume of the specification's second scenario, padded to
    more than 150 words. *)
Definition sample_resume : str :=
  str_lit "Python, HTML, CSS, JavaScript, SQL, Git, GitHub, Machine Learning, Projects: built a web app using React, "
  ++ [8226%N]
  ++ str_lit " bullet list, Education Experience Skills Projects Achievements"
  ++ concat (replicate 150 (str_lit " word")).

Section Engine.
(** [text.lower()] maps each code point on its own, through the Unicode
    database of the interpreter; the mapping of a code point above 127 may
    give up to three code points and, for the capital sigma, depends on the
    text around it. That table is a parameter. On ASCII, [A]-[Z] go to
    [a]-[z] and all else stays. *)
Variable unicode_lower : str -> N -> str -> str.

Definition lower_char (before : str) (c : N) (after : str) : str :=
  if ((65 <=? c) && (c <=? 90))%N then [(c + 32)%N]
  else if (c <? 128)%N then [c]
  else unicode_lower before c after.

Fixpoint lower_from (before : str) (text : str) : str :=
  match text with
  | [] => []
  | c :: after => lower_char before c after ++ lower_from (before ++ [c]) after
  end.

Definition lower (text : str) : str := lower_from [] text.

(** ** The functions of [app.py] *)

Definition extract_skills (g : globals) (text : str) : list str :=
  let text_lower := lower text in
  let found : gset str :=
    foldl (fun found skill =>
             if str_in skill text_lower then {[skill]} ∪ found else found)
          ∅ (KNOWN_SKILLS g) in
  sorted (elements found).

Definition has_projects (text : str) : bool :=
  let t := lower text in
  existsb (fun word => str_in word t) keywords.

Definition formatting_score (text : str) : Z :=
  let has_bullets := existsb (fun char => str_in char text) bullet_chars in
  let section_score :=
    sum (map (fun _ => 1) (filter (fun sec => str_in sec (lower text)) sections)) in
  let score := 0 in
  let score := if has_bullets then score + 8 else score in
  let score :=
    if 3 <=? section_score then score + 12
    else if section_score =? 2 then score + 8
    else if section_score =? 1 then score + 4
    else score + 2 in
  Z.min score 20.

(** Returns [(total_score, round(skill_score, 1), project_score,
    format_score)], or [None] where the division raises. *)
Definition calculate_score (g : globals) (extracted_skills : list str) (text : str)
  : option (pynum * pynum * Z * Z) :=
  let matches :=
    sum (map (fun _ => 1)
             (filter (fun skill => skill ∈ extracted_skills) (REQUIRED_SKILLS g))) in
  skill_score ←
    (if truthy (REQUIRED_SKILLS g)
     then q ← py_truediv (PyInt matches) (PyInt (len (REQUIRED_SKILLS g)));
          Some (py_mul q (PyInt 50))
     else Some (PyInt 0));
  let project_score := if has_projects text then 30 else 10 in
  let format_score := formatting_score text in
  let total_score :=
    round1 (py_add (py_add skill_score (PyInt project_score)) (PyInt format_score)) in
  Some (total_score, round1 skill_score, project_score, format_score).

(** Returns [(suggestions, missing_skills)]. *)
Definition generate_suggestions (g : globals) (text : str) (extracted_skills : list str)
  : list str * list str :=
  let suggestions : list str := [] in
  let missing_skills :=
    filter (fun s => s ∉ extracted_skills) (REQUIRED_SKILLS g) in
  let suggestions :=
    if truthy missing_skills
    then suggestions ++ [MISSING_SKILLS_PREFIX ++ join (str_lit ", ") missing_skills]
    else suggestions in
  let suggestions :=
    if negb (has_projects text) then suggestions ++ [NO_PROJECTS_MSG]
    else suggestions in
  let word_count := len (split text) in
  let suggestions :=
    if word_count <? 150 then suggestions ++ [TOO_SHORT_MSG] else suggestions in
  let suggestions :=
    if 700 <? word_count then suggestions ++ [TOO_LONG_MSG] else suggestions in
  let suggestions :=
    if len extracted_skills =? 0 then suggestions ++ [NO_SKILLS_MSG]
    else suggestions in
  let suggestions :=
    if negb (existsb (fun char => str_in char text) bullet_chars)
    then suggestions ++ [NO_BULLETS_MSG]
    else suggestions in
  let suggestions :=
    if negb (truthy suggestions) then suggestions ++ [LOOKS_GOOD_MSG]
    else suggestions in
  (suggestions, missing_skills).

(** The route [/]: [method] is [request.method] and [file] is
    [request.files.get("resume")]. [None] is an exception that leaves the
    function. *)
Definition home (g : globals) (method : str) (file : option FileStorage)
  : option response :=
  if bool_decide (method = str_lit "POST") then
    match file with
    | None => Some (index_html (Some UPLOAD_PDF_MSG))
    | Some file =>
        if negb (truthy (filename file)) || bool_decide (filename file = [])
        then Some (index_html (Some UPLOAD_PDF_MSG))
        else if negb (endswith (str_lit ".pdf") (lower (filename file)))
        then Some (index_html (Some ONLY_PDF_MSG))
        else
          text ← extract_text_from_pdf file;
          if negb (truthy (strip text))
          then Some (index_html (Some NO_TEXT_MSG))
          else
            let extracted_skills := extract_skills g text in
            scores ← calculate_score g extracted_skills text;
            let '(total_score, skill_score, project_score, format_score) := scores in
            let '(suggestions, missing_skills) :=
              generate_suggestions g text extracted_skills in
            Some (result_html total_score skill_score project_score format_score
                              extracted_skills missing_skills suggestions)
    end
  else Some (index_html None).

(** ** Specification-side definitions

    The signals and rules as the specification words them, to compare the
    functions above with. *)

(** [sub] occurs as a substring of [text]. *)
Definition substring (sub text : str) : Prop :=
  ∃ before after, text = before ++ sub ++ after.

(** The text holds one of the characters U+2022, [-], [*]. *)
Definition hasBullets (text : str) : bool :=
  bool_decide (8226%N ∈ text ∨ 45%N ∈ text ∨ 42%N ∈ text).

(** How many of the section names occur in the lower-cased text. *)
Definition sectionHitCount (text : str) : nat :=
  length (filter (fun sec => str_in sec (lower text)) sections).

(** The number of white-space delimited tokens of the raw text. *)
Definition wordCount (text : str) : Z := len (split text).

(** The step function from the number of sections found to the bonus. *)
Definition sectionBonus (hits : nat) : Z :=
  match hits with
  | 0%nat => 2
  | 1%nat => 4
  | 2%nat => 8
  | _ => 12
  end.

(** The skill score of the specification: the share of the required
    skills that were extracted, out of 50, to one decimal; 0 for an empty
    required set. *)
Definition skillScore (required extracted : gset str) : pynum :=
  if decide (required = ∅) then PyInt 0
  else round1 (PyFloat (float_of_Z (Z.of_nat (size (required ∩ extracted)))
                        / float_of_Z (Z.of_nat (size required))
                        * float_of_Z 50)).

(** The suggestions in their priority order, the condition that triggers
    each, and its text. *)
Inductive suggestion : Type :=
  | MissingSkills | NoProjects | TooShort | TooLong | NoSkills | NoBullets.

Definition priority : list suggestion :=
  [MissingSkills; NoProjects; TooShort; TooLong; NoSkills; NoBullets].

Definition missingRequired (g : globals) (extracted : list str) : list str :=
  list_difference (REQUIRED_SKILLS g) extracted.

Definition triggers (g : globals) (text : str) (extracted : list str)
    (k : suggestion) : bool :=
  match k with
  | MissingSkills => bool_decide (missingRequired g extracted ≠ [])
  | NoProjects => negb (has_projects text)
  | TooShort => bool_decide (wordCount text < 150)
  | TooLong => bool_decide (700 < wordCount text)
  | NoSkills => bool_decide (extracted = [])
  | NoBullets => negb (hasBullets text)
  end.

Definition message (g : globals) (extracted : list str) (k : suggestion) : str :=
  match k with
  | MissingSkills =>
      MISSING_SKILLS_PREFIX ++ join (str_lit ", ") (missingRequired g extracted)
  | NoProjects => NO_PROJECTS_MSG
  | TooShort => TOO_SHORT_MSG
  | TooLong => TOO_LONG_MSG
  | NoSkills => NO_SKILLS_MSG
  | NoBullets => NO_BULLETS_MSG
  end.

(** ** Auxiliary definitions *)

(** A run of ASCII code points none of which is a capital: [lower] keeps
    such a run as it is. *)
Definition lowercase_ascii (s : str) : Prop :=
  Forall (fun c => (c < 128)%N ∧ ¬ (65 ≤ c ≤ 90)%N) s.

(** The number of required skills found among the extracted ones, as
    [calculate_score] counts them. *)
Definition matches_of (g : globals) (extracted_skills : list str) : Z :=
  len (filter (fun skill => skill ∈ extracted_skills) (REQUIRED_SKILLS g)).

(** The skill score before it is rounded. *)
Definition skill_score_of (g : globals) (extracted_skills : list str) : pynum :=
  if truthy (REQUIRED_SKILLS g)
  then PyFloat (float_of_Z (matches_of g extracted_skills)
                / float_of_Z (len (REQUIRED_SKILLS g)) * float_of_Z 50)
  else PyInt 0.

(** What [calculate_score] returns on a skill score and the two integer
    scores. *)
Definition breakdown (skill_score : pynum) (project_score format_score : Z)
  : pynum * pynum * Z * Z :=
  (round1 (py_add (py_add skill_score (PyInt project_score)) (PyInt format_score)),
   round1 skill_score, project_score, format_score).

(** The properties of a returned tuple that the specification asks for. *)
Definition breakdown_ok (b : pynum * pynum * Z * Z) : Prop :=
  let '(total, skill, project, format) := b in
  total = round1 (py_add (py_add skill (PyInt project)) (PyInt format)) ∧
  py_leb (PyInt 0) total = true ∧
  py_leb total (PyInt 100) = true ∧
  py_leb (PyFloat 12) total = true.

(** The lower case of an ASCII code point, and the texts of ASCII only. *)
Definition ascii_lower (c : N) : N :=
  if ((65 <=? c) && (c <=? 90))%N then (c + 32)%N else c.

Definition is_ascii (s : str) : Prop := Forall (fun c => (c < 128)%N) s.

(** The loop of [extract_text_from_pdf] in closed form. *)
Definition page_texts (pages : list (option str)) : str :=
  concat (map (fun page_text => page_text ++ [10%N])
              (filter (fun page_text => page_text ≠ []) (omap id pages))).

(** A test that tells two numbers apart by computation. *)
Definition pynum_eqb (x y : pynum) : bool :=
  match x, y with
  | PyInt a, PyInt b => a =? b
  | PyFloat a, PyFloat b => PrimFloat.eqb a b
  | _, _ => false
  end.


Ltac elem_cases H :=
  repeat (apply elem_of_cons in H as [-> | H]); [.. | by apply elem_of_nil in H].

(** ** Strings *)

Lemma startswith_spec (prefix text : str) :
  startswith prefix text = true ↔ ∃ after, text = prefix ++ after.
Proof.
  revert text. induction prefix as [|p prefix IH]; intros text; simpl.
  - split; [intros _; by exists text | done].
  - destruct text as [|c text].
    + split; [done | intros [after Heq]; discriminate].
    + rewrite andb_true_iff, N.eqb_eq, IH. split.
      * intros [-> [after ->]]. by exists after.
      * intros [after Heq]. injection Heq as -> ->. eauto.
Qed.

Lemma str_in_spec (sub text : str) :
  str_in sub text = true ↔ substring sub text.
Proof.
  unfold substring. induction text as [|c text IH].
  - simpl. rewrite orb_false_r, startswith_spec. split.
    + intros [after Heq]. by exists [], after.
    + intros [before [after Heq]]. symmetry in Heq.
      apply app_eq_nil in Heq as [-> Heq]. apply app_eq_nil in Heq as [-> ->].
      by exists [].
  - cbn [str_in]. rewrite orb_true_iff, startswith_spec, IH. split.
    + intros [[after ->] | [before [after ->]]].
      * by exists [], after.
      * by exists (c :: before), after.
    + intros [[|c' before] [after Heq]].
      * left. by exists after.
      * right. injection Heq as -> ->. by exists before, after.
Qed.

(** A one-character needle is found exactly when the character is an
    element of the text. *)
Lemma str_in_char (c : N) (text : str) : str_in [c] text = true ↔ c ∈ text.
Proof.
  induction text as [|d text IH]; cbn [str_in startswith].
  - split; [done | by intros ?%elem_of_nil].
  - rewrite orb_true_iff, andb_true_r, N.eqb_eq, elem_of_cons.
    split; intros [Heq | Hin]; auto; right; by apply IH.
Qed.

(** The order of [<] on strings. *)

Lemma str_ltb_asym (x y : str) : str_ltb x y = true → str_ltb y x = false.
Proof.
  revert y. induction x as [|a x IH]; intros [|b y]; simpl; try done.
  intros H. destruct (N.ltb_spec a b), (N.ltb_spec b a), (N.eqb_spec a b),
    (N.eqb_spec b a); simpl in *; try lia; try done. by apply IH.
Qed.

Lemma str_ltb_trichotomy (x y : str) :
  str_ltb x y = false → str_ltb y x = false → x = y.
Proof.
  revert y. induction x as [|a x IH]; intros [|b y]; simpl; try done.
  intros H1 H2. destruct (N.ltb_spec a b), (N.ltb_spec b a), (N.eqb_spec a b),
    (N.eqb_spec b a); simpl in *; try lia; try done.
  subst. f_equal. by apply IH.
Qed.

Lemma str_ltb_trans (x y z : str) :
  str_ltb x y = true → str_ltb y z = true → str_ltb x z = true.
Proof.
  revert y z. induction x as [|a x IH]; intros [|b y] [|c z]; simpl; try done.
  intros H1 H2. destruct (N.ltb_spec a b), (N.ltb_spec b c), (N.ltb_spec a c),
    (N.eqb_spec a b), (N.eqb_spec b c), (N.eqb_spec a c);
    simpl in *; try lia; try done. by apply (IH y).
Qed.

#[local] Instance str_le_total : Total str_le.
Proof.
  intros x y. unfold str_le. destruct (str_ltb y x) eqn:H; [|by left].
  right. by apply str_ltb_asym.
Qed.

#[local] Instance str_le_trans : Transitive str_le.
Proof.
  unfold str_le. intros x y z Hxy Hyz.
  destruct (str_ltb z x) eqn:Hzx; [|done].
  destruct (str_ltb y z) eqn:Hy.
  - by rewrite (str_ltb_trans y z x) in Hxy.
  - rewrite (str_ltb_trichotomy y z) in Hxy by done. congruence.
Qed.

Lemma str_le_lt (x y : str) : str_le x y → x ≠ y → str_lt x y.
Proof.
  unfold str_le, str_lt. intros Hle Hne.
  destruct (str_ltb x y) eqn:H; [done |].
  by destruct Hne; apply str_ltb_trichotomy.
Qed.

Lemma StronglySorted_str_lt (l : list str) :
  StronglySorted str_le l → NoDup l → StronglySorted str_lt l.
Proof.
  induction 1 as [|x l Hl IH Hx]; intros Hnd; [constructor |].
  apply NoDup_cons in Hnd as [Hnotin Hnd]. constructor; [by apply IH |].
  apply Forall_forall. intros y Hy. apply str_le_lt.
  - by apply (proj1 (Forall_forall _ _) Hx).
  - by intros ->.
Qed.

Lemma sorted_Permutation (l : list str) : sorted l ≡ₚ l.
Proof. apply merge_sort_Permutation. Qed.

Lemma sorted_StronglySorted (l : list str) : StronglySorted str_le (sorted l).
Proof. apply StronglySorted_merge_sort; apply _. Qed.

Lemma lower_from_lowercase_ascii (s before after : str) :
  lowercase_ascii s →
  lower_from before (s ++ after) = s ++ lower_from (before ++ s) after.
Proof.
  intros Hs. revert before.
  induction Hs as [|c s [Hc Hcap] Hs IH]; intros before; simpl.
  - by rewrite app_nil_r.
  - rewrite IH, <- app_assoc. simpl. unfold lower_char.
    destruct (N.leb_spec 65 c), (N.leb_spec c 90), (N.ltb_spec c 128);
      simpl; try lia; done.
Qed.

Lemma substring_lower (s text : str) :
  lowercase_ascii s → substring s text → substring s (lower text).
Proof.
  intros Hs [before [after ->]]. unfold lower. generalize (@nil N) as seen.
  induction before as [|c before IH]; intros seen; simpl.
  - rewrite lower_from_lowercase_ascii by done. by exists [], (lower_from (seen ++ s) after).
  - destruct (IH (seen ++ [c])) as [x [y ->]].
    exists (lower_char seen c (before ++ s ++ after) ++ x), y.
    by rewrite <- app_assoc.
Qed.

(** ** Skill extraction *)

(** The loop of [extract_skills]: what [found] holds after the skills of
    [known] have been visited. *)
Lemma elem_of_found (text_lower : str) (known : list str) (found : gset str)
    (skill : str) :
  skill ∈ foldl (fun found skill =>
                   if str_in skill text_lower then {[skill]} ∪ found else found)
                found known
  ↔ skill ∈ found ∨ (skill ∈ known ∧ str_in skill text_lower = true).
Proof.
  revert found. induction known as [|k known IH]; intros found; simpl.
  - rewrite elem_of_nil. tauto.
  - rewrite IH, elem_of_cons. destruct (str_in k text_lower) eqn:Hk.
    + rewrite elem_of_union, elem_of_singleton.
      intuition (subst; auto).
    + intuition (subst; congruence).
Qed.

Lemma elem_of_extract_skills (g : globals) (text skill : str) :
  skill ∈ extract_skills g text
  ↔ skill ∈ KNOWN_SKILLS g ∧ str_in skill (lower text) = true.
Proof.
  unfold extract_skills. rewrite sorted_Permutation, elem_of_elements, elem_of_found.
  rewrite elem_of_empty. tauto.
Qed.

Lemma extract_skills_NoDup (g : globals) (text : str) :
  NoDup (extract_skills g text).
Proof.
  unfold extract_skills. rewrite sorted_Permutation. apply NoDup_elements.
Qed.

Lemma extract_skills_sorted (g : globals) (text : str) :
  StronglySorted str_lt (extract_skills g text).
Proof.
  apply StronglySorted_str_lt; [apply sorted_StronglySorted |].
  apply extract_skills_NoDup.
Qed.

(** C2. For every text, [extract_skills] returns a list that is strictly
    increasing in the code-point order of strings (sorted, no repeats) and
    is a subset of the known vocabulary; a skill is in it exactly when it is
    a known skill that occurs as a substring of the lower-cased text; any
    text that contains "javascript" yields a result that contains "java";
    and the empty text yields the empty list. *)
Theorem extract_skills_spec (text : str) :
  StronglySorted str_lt (extract_skills app_globals text) ∧
  extract_skills app_globals text ⊆ KNOWN_SKILLS app_globals ∧
  (∀ skill, skill ∈ extract_skills app_globals text
            ↔ skill ∈ KNOWN_SKILLS app_globals ∧ substring skill (lower text)) ∧
  (∀ before after,
      str_lit "java"
      ∈ extract_skills app_globals (before ++ str_lit "javascript" ++ after)) ∧
  extract_skills app_globals [] = [].
Proof.
  split_and!.
  - apply extract_skills_sorted.
  - intros skill Hin. by apply elem_of_extract_skills in Hin as [? _].
  - intros skill. by rewrite elem_of_extract_skills, str_in_spec.
  - intros before after. apply elem_of_extract_skills. split.
    + apply (proj2 (list_elem_of_In _ _)). vm_compute. tauto.
    + apply str_in_spec.
      destruct (substring_lower (str_lit "javascript")
                  (before ++ str_lit "javascript" ++ after)) as [x [y Heq]].
      * unfold lowercase_ascii. apply (bool_decide_unpack _). by vm_compute.
      * by exists before, after.
      * exists x, (str_lit "script" ++ y). rewrite Heq.
        change (str_lit "javascript") with (str_lit "java" ++ str_lit "script").
        by rewrite <- !app_assoc.
  - vm_compute. reflexivity.
Qed.

(** ** Formatting score *)

Lemma sum_ones_from {A} (l : list A) (acc : Z) :
  foldl Z.add acc (map (fun _ => 1) l) = acc + len l.
Proof.
  unfold len. revert acc. induction l as [|x l IH]; intros acc; simpl foldl.
  - simpl. lia.
  - rewrite IH. simpl length. lia.
Qed.

Lemma sum_ones {A} (l : list A) : sum (map (fun _ => 1) l) = len l.
Proof. unfold sum. by rewrite sum_ones_from. Qed.

(** The bullet test of the code is the bullet signal. *)
Lemma has_bullets_hasBullets (text : str) :
  existsb (fun char => str_in char text) bullet_chars = hasBullets text.
Proof.
  apply eq_true_iff_eq. unfold hasBullets, bullet_chars.
  rewrite bool_decide_eq_true. cbn [existsb].
  change (str_lit "-") with [45%N]. change (str_lit "*") with [42%N].
  rewrite !orb_true_iff, !str_in_char. intuition discriminate.
Qed.

Lemma section_step (hits : nat) (score : Z) :
  (if 3 <=? Z.of_nat hits then score + 12
   else if Z.of_nat hits =? 2 then score + 8
   else if Z.of_nat hits =? 1 then score + 4
   else score + 2) = score + sectionBonus hits.
Proof.
  destruct hits as [|[|[|hits]]]; try reflexivity.
  destruct (Z.leb_spec 3 (Z.of_nat (S (S (S hits))))); [reflexivity | lia].
Qed.

Lemma sectionBonus_cases (hits : nat) : sectionBonus hits ∈ [2; 4; 8; 12].
Proof. destruct hits as [|[|[|hits]]]; simpl; set_solver. Qed.

Lemma formatting_score_eq (text : str) :
  formatting_score text
  = (if hasBullets text then 8 else 0) + sectionBonus (sectionHitCount text).
Proof.
  unfold formatting_score. rewrite has_bullets_hasBullets, sum_ones.
  unfold len. fold (sectionHitCount text). rewrite section_step.
  pose proof (sectionBonus_cases (sectionHitCount text)) as Hb.
  assert (sectionBonus (sectionHitCount text) <= 12).
  { revert Hb. generalize (sectionBonus (sectionHitCount text)). intros b Hb.
    repeat (apply elem_of_cons in Hb as [-> | Hb]); try lia.
    by apply elem_of_nil in Hb. }
  destruct (hasBullets text); lia.
Qed.

Lemma formatting_score_cases (text : str) :
  formatting_score text ∈ [2; 4; 8; 10; 12; 16; 20].
Proof.
  rewrite formatting_score_eq.
  pose proof (sectionBonus_cases (sectionHitCount text)) as Hb.
  revert Hb. generalize (sectionBonus (sectionHitCount text)). intros b Hb.
  repeat (apply elem_of_cons in Hb as [-> | Hb]);
    [destruct (hasBullets text); simpl; set_solver .. | by apply elem_of_nil in Hb].
Qed.

(** C5. For every text the format score is the bullet base (8 with
    bullets, 0 without) plus the section bonus (2, 4, 8 for no, one, two
    sections found and 12 from three on); it is one of 2, 4, 8, 10, 12, 16,
    20, each of which some text reaches; and the clamp at 20 leaves the sum
    as it is. *)
Theorem formatting_score_spec (text : str) :
  formatting_score text
  = (if hasBullets text then 8 else 0) + sectionBonus (sectionHitCount text) ∧
  formatting_score text ∈ [2; 4; 8; 10; 12; 16; 20] ∧
  Forall (fun v => ∃ text', formatting_score text' = v) [2; 4; 8; 10; 12; 16; 20] ∧
  Z.min ((if hasBullets text then 8 else 0) + sectionBonus (sectionHitCount text)) 20
  = (if hasBullets text then 8 else 0) + sectionBonus (sectionHitCount text).
Proof.
  split_and!.
  - apply formatting_score_eq.
  - apply formatting_score_cases.
  - repeat apply Forall_cons_2; [.. | apply Forall_nil_2].
    + by exists [].
    + by exists (str_lit "education").
    + by exists (str_lit "education skills").
    + by exists (str_lit "-").
    + by exists (str_lit "education skills projects").
    + by exists (str_lit "* education skills").
    + by exists (str_lit "* Education Skills PROJECTS").
  - pose proof (sectionBonus_cases (sectionHitCount text)) as Hb.
    revert Hb. generalize (sectionBonus (sectionHitCount text)). intros b Hb.
    repeat (apply elem_of_cons in Hb as [-> | Hb]);
      [destruct (hasBullets text); reflexivity .. | by apply elem_of_nil in Hb].
Qed.

(** ** Score composition *)

(** [calculate_score] never raises: the division is only reached with a
    non-empty required list. *)
Lemma calculate_score_eq (g : globals) (extracted_skills : list str) (text : str) :
  calculate_score g extracted_skills text
  = Some (breakdown (skill_score_of g extracted_skills)
                    (if has_projects text then 30 else 10)
                    (formatting_score text)).
Proof.
  unfold calculate_score, skill_score_of, matches_of. rewrite sum_ones.
  destruct (REQUIRED_SKILLS g) as [|r required] eqn:Hreq; [reflexivity |].
  cbn [truthy]. unfold py_truediv. cbn [is_zero].
  destruct (Z.eqb_spec (len (r :: required)) 0) as [Hlen | _].
  - unfold len in Hlen. simpl in Hlen. lia.
  - reflexivity.
Qed.

Lemma matches_of_range (extracted_skills : list str) :
  matches_of app_globals extracted_skills ∈ [0; 1; 2; 3; 4; 5; 6; 7; 8].
Proof.
  unfold matches_of, len.
  pose proof (length_filter (fun skill => skill ∈ extracted_skills)
                (REQUIRED_SKILLS app_globals)) as Hle.
  change (length (REQUIRED_SKILLS app_globals)) with 8%nat in Hle.
  revert Hle. generalize (length (filter (fun skill => skill ∈ extracted_skills)
                                    (REQUIRED_SKILLS app_globals))).
  intros n Hn. do 9 (destruct n as [|n]; [set_solver |]). lia.
Qed.

(** Every combination of the signals, computed on IEEE doubles. *)
Lemma breakdown_ok_all (m p f : Z) :
  m ∈ [0; 1; 2; 3; 4; 5; 6; 7; 8] → p ∈ [10; 30] → f ∈ [2; 4; 8; 10; 12; 16; 20] →
  breakdown_ok (breakdown (PyFloat (float_of_Z m / float_of_Z 8 * float_of_Z 50)) p f).
Proof.
  intros Hm Hp Hf. elem_cases Hm; elem_cases Hp; elem_cases Hf;
    vm_compute; split_and!; reflexivity.
Qed.

Lemma calculate_score_ok (extracted_skills : list str) (text : str) :
  ∃ b, calculate_score app_globals extracted_skills text = Some b ∧ breakdown_ok b.
Proof.
  rewrite calculate_score_eq. eexists. split; [reflexivity |].
  unfold skill_score_of.
  change (truthy (REQUIRED_SKILLS app_globals)) with true.
  change (len (REQUIRED_SKILLS app_globals)) with 8. cbv iota.
  apply breakdown_ok_all.
  - apply matches_of_range.
  - destruct (has_projects text); set_solver.
  - apply formatting_score_cases.
Qed.

(** C1. For every list of extracted skills and every text,
    [calculate_score] returns a tuple whose total is [round(., 1)] of the
    sum of the three sub-scores returned with it (the skill score as
    returned, that is rounded), and the total lies between 0 and 100. *)
Theorem calculate_score_total (extracted_skills : list str) (text : str) :
  ∃ total skill project format,
    calculate_score app_globals extracted_skills text
    = Some (total, skill, project, format) ∧
    total = round1 (py_add (py_add skill (PyInt project)) (PyInt format)) ∧
    py_leb (PyInt 0) total = true ∧
    py_leb total (PyInt 100) = true.
Proof.
  destruct (calculate_score_ok extracted_skills text)
    as [[[[total skill] project] format] [Heq (Hsum & Hlo & Hhi & _)]].
  by exists total, skill, project, format.
Qed.

(** C10. For every list of extracted skills and every text the total is at
    least 12.0, the project score at least 10 and the format score at least
    2; the empty text with no skills has total 12.0 exactly. *)
Theorem calculate_score_floor (extracted_skills : list str) (text : str) :
  (∃ total skill project format,
      calculate_score app_globals extracted_skills text
      = Some (total, skill, project, format) ∧
      py_leb (PyFloat 12) total = true ∧ 10 <= project ∧ 2 <= format) ∧
  calculate_score app_globals [] [] = Some (PyFloat 12, PyFloat 0, 10, 2).
Proof.
  split; [| by vm_compute].
  destruct (calculate_score_ok extracted_skills text)
    as [[[[total skill] project] format] [Heq (_ & _ & _ & Hfloor)]].
  exists total, skill, project, format. split_and!; try done.
  - rewrite calculate_score_eq in Heq. injection Heq as _ _ <- _.
    destruct (has_projects text); lia.
  - rewrite calculate_score_eq in Heq. injection Heq as _ _ _ <-.
    pose proof (formatting_score_cases text) as Hf.
    revert Hf. generalize (formatting_score text). intros f Hf.
    elem_cases Hf; lia.
Qed.

(** C7. For every text (and every list of extracted skills, whatever the
    vocabularies) the project score returned is 30 when [has_projects]
    holds of the text and 10 when it does not, and nothing else. *)
Theorem project_score_spec (g : globals) (extracted_skills : list str) (text : str) :
  ∃ total skill project format,
    calculate_score g extracted_skills text = Some (total, skill, project, format) ∧
    project = (if has_projects text then 30 else 10) ∧
    (project = 30 ∨ project = 10).
Proof.
  rewrite calculate_score_eq. unfold breakdown. do 4 eexists.
  split_and!; [reflexivity | reflexivity |].
  destruct (has_projects text); auto.
Qed.

(** The count of [calculate_score] is the size of the intersection when
    the required list has no repeats. *)
Lemma matches_of_inter (g : globals) (extracted_skills : list str) :
  NoDup (REQUIRED_SKILLS g) →
  matches_of g extracted_skills
  = Z.of_nat (size ((list_to_set (REQUIRED_SKILLS g) : gset str)
                    ∩ list_to_set extracted_skills)).
Proof.
  intros Hnd. unfold matches_of, len. f_equal.
  rewrite <- (size_list_to_set (C:=gset str)) by by apply NoDup_filter.
  f_equal. apply set_eq. intros skill.
  rewrite elem_of_list_to_set, list_elem_of_filter, elem_of_intersection,
    !elem_of_list_to_set. tauto.
Qed.

Lemma skill_score_refines (g : globals) (extracted_skills : list str) :
  NoDup (REQUIRED_SKILLS g) →
  round1 (skill_score_of g extracted_skills)
  = skillScore (list_to_set (REQUIRED_SKILLS g)) (list_to_set extracted_skills).
Proof.
  intros Hnd. unfold skill_score_of, skillScore.
  rewrite matches_of_inter by done. unfold len.
  rewrite <- (size_list_to_set (C:=gset str) (REQUIRED_SKILLS g)) by done.
  destruct (REQUIRED_SKILLS g) as [|r required]; [reflexivity |].
  cbn [truthy]. destruct (decide _) as [Hempty | _]; [| reflexivity].
  exfalso. apply (not_elem_of_empty (C:=gset str) r). rewrite <- Hempty.
  apply elem_of_list_to_set. left.
Qed.

(** C6. For every list of extracted skills the skill score returned is
    the share of the required skills that are among the extracted ones,
    times 50, rounded to one decimal; with an empty required list it is 0;
    and whatever the vocabularies [calculate_score] returns: the division
    is never made by zero. *)
Theorem skill_score_spec (extracted_skills : list str) (text : str) :
  (∃ total project format,
      calculate_score app_globals extracted_skills text
      = Some (total,
              round1 (PyFloat
                (float_of_Z (Z.of_nat (size
                   ((list_to_set (REQUIRED_SKILLS app_globals) : gset str)
                    ∩ list_to_set extracted_skills)))
                 / float_of_Z (Z.of_nat (size
                     (list_to_set (REQUIRED_SKILLS app_globals) : gset str)))
                 * float_of_Z 50)),
              project, format)) ∧
  (∀ known, ∃ total project format,
      calculate_score {| KNOWN_SKILLS := known; REQUIRED_SKILLS := [] |}
                      extracted_skills text
      = Some (total, PyInt 0, project, format)) ∧
  (∀ g, is_Some (calculate_score g extracted_skills text)).
Proof.
  split_and!.
  - rewrite calculate_score_eq. unfold breakdown. do 3 eexists.
    rewrite skill_score_refines.
    + unfold skillScore. destruct (decide _) as [Hempty | _]; [| reflexivity].
      exfalso. apply (not_elem_of_empty (C:=gset str) (str_lit "python")).
      rewrite <- Hempty. apply elem_of_list_to_set. left.
    + apply (bool_decide_unpack _). by vm_compute.
  - intros known. rewrite calculate_score_eq. unfold breakdown. by do 3 eexists.
  - intros g. rewrite calculate_score_eq. by eexists.
Qed.

(** ** Suggestions *)

Lemma missing_skills_eq (required extracted_skills : list str) :
  filter (fun s => s ∉ extracted_skills) required
  = list_difference required extracted_skills.
Proof.
  induction required as [|r required IH]; [reflexivity |].
  rewrite filter_cons, IH. simpl.
  destruct (decide_rel elem_of r extracted_skills) as [Hin | Hnotin].
  - by rewrite decide_False by auto.
  - by rewrite decide_True.
Qed.

Lemma truthy_decide {A} `{EqDecision A} (l : list A) :
  truthy l = bool_decide (l ≠ []).
Proof. by destruct l. Qed.

Lemma ltb_decide (a b : Z) : (a <? b) = bool_decide (a < b).
Proof.
  destruct (Z.ltb_spec a b).
  - by rewrite bool_decide_eq_true_2.
  - rewrite bool_decide_eq_false_2; [done | lia].
Qed.

Lemma len_zero_decide (l : list str) : (len l =? 0) = bool_decide (l = []).
Proof. by destruct l. Qed.

Lemma filter_cons_bool {A} (f : A → bool) (x : A) (l : list A) :
  filter f (x :: l) = if f x then x :: filter f l else filter f l.
Proof. rewrite filter_cons. by destruct (f x). Qed.

(** The sequence of appends, read as a filter of the priority list. *)
Lemma generate_suggestions_eq (g : globals) (text : str) (extracted_skills : list str) :
  generate_suggestions g text extracted_skills
  = (match filter (triggers g text extracted_skills) priority with
     | [] => [LOOKS_GOOD_MSG]
     | fired => map (message g extracted_skills) fired
     end,
     missingRequired g extracted_skills).
Proof.
  unfold generate_suggestions.
  rewrite missing_skills_eq. fold (missingRequired g extracted_skills).
  rewrite (truthy_decide (missingRequired g extracted_skills)), !ltb_decide,
    len_zero_decide, has_bullets_hasBullets.
  fold (wordCount text).
  change (bool_decide (missingRequired g extracted_skills ≠ []))
    with (triggers g text extracted_skills MissingSkills).
  change (negb (has_projects text)) with (triggers g text extracted_skills NoProjects).
  change (bool_decide (wordCount text < 150))
    with (triggers g text extracted_skills TooShort).
  change (bool_decide (700 < wordCount text))
    with (triggers g text extracted_skills TooLong).
  change (bool_decide (extracted_skills = []))
    with (triggers g text extracted_skills NoSkills).
  change (negb (hasBullets text)) with (triggers g text extracted_skills NoBullets).
  change (MISSING_SKILLS_PREFIX ++ join (str_lit ", ") (missingRequired g extracted_skills))
    with (message g extracted_skills MissingSkills).
  unfold priority. rewrite !filter_cons_bool, filter_nil.
  destruct (triggers g text extracted_skills MissingSkills),
    (triggers g text extracted_skills NoProjects),
    (triggers g text extracted_skills TooShort),
    (triggers g text extracted_skills TooLong),
    (triggers g text extracted_skills NoSkills),
    (triggers g text extracted_skills NoBullets); reflexivity.
Qed.

Lemma priority_complete (k : suggestion) : k ∈ priority.
Proof. destruct k; unfold priority; set_solver. Qed.

(** The texts of the suggestions are pairwise different, whatever the
    missing skills are: the first one alone starts with a [T]. *)
Lemma message_head (g : globals) (extracted_skills : list str) (k : suggestion) :
  head (message g extracted_skills k)
  = head match k with
         | MissingSkills => MISSING_SKILLS_PREFIX
         | _ => message g extracted_skills k
         end.
Proof. by destruct k. Qed.

Lemma message_inj (g : globals) (extracted_skills : list str) (k k' : suggestion) :
  message g extracted_skills k = message g extracted_skills k' → k = k'.
Proof.
  intros Heq. pose proof (f_equal head Heq) as Hhead.
  rewrite !message_head in Hhead.
  destruct k, k'; try reflexivity; try (vm_compute in Hhead; discriminate);
    vm_compute in Heq; discriminate.
Qed.

Lemma message_not_fallback (g : globals) (extracted_skills : list str) (k : suggestion) :
  message g extracted_skills k ≠ LOOKS_GOOD_MSG.
Proof.
  intros Heq. pose proof (f_equal head Heq) as Hhead.
  rewrite message_head in Hhead.
  destruct k; try (vm_compute in Hhead; discriminate);
    vm_compute in Heq; discriminate.
Qed.

Lemma elem_of_suggestions (g : globals) (text : str) (extracted_skills : list str)
    (m : str) :
  m ∈ (generate_suggestions g text extracted_skills).1
  ↔ (∃ k, triggers g text extracted_skills k = true ∧ m = message g extracted_skills k)
    ∨ (m = LOOKS_GOOD_MSG ∧ ∀ k, triggers g text extracted_skills k = false).
Proof.
  rewrite generate_suggestions_eq. cbn [fst].
  destruct (filter (triggers g text extracted_skills) priority) as [|k0 fired] eqn:Hf.
  - rewrite list_elem_of_singleton. split.
    + intros ->. right. split; [done |]. intros k.
      destruct (triggers g text extracted_skills k) eqn:Hk; [| done].
      destruct (filter_nil_not_elem_of _ _ k Hf); [by rewrite Hk |].
      apply priority_complete.
    + intros [[k [Hk _]] | [-> _]]; [| done].
      destruct (filter_nil_not_elem_of _ _ k Hf); [by rewrite Hk |].
      apply priority_complete.
  - rewrite <- Hf. change (map ?f ?l) with (f <$> l).
    rewrite list_elem_of_fmap. split.
    + intros [k [-> Hk]]. apply list_elem_of_filter in Hk as [Hk _].
      left. exists k. split; [by apply Is_true_true | done].
    + intros [[k [Hk ->]] | [_ Hnone]].
      * exists k. split; [done |]. apply list_elem_of_filter.
        split; [by apply Is_true_true | apply priority_complete].
      * assert (k0 ∈ filter (triggers g text extracted_skills) priority) as Hk0
          by (rewrite Hf; left).
        apply list_elem_of_filter in Hk0 as [Hk0 _].
        apply Is_true_true in Hk0. by rewrite Hnone in Hk0.
Qed.

Lemma elem_of_suggestions_message (g : globals) (text : str)
    (extracted_skills : list str) (k : suggestion) :
  message g extracted_skills k ∈ (generate_suggestions g text extracted_skills).1
  ↔ triggers g text extracted_skills k = true.
Proof.
  rewrite elem_of_suggestions. split.
  - intros [[k' [Hk' Heq]] | [Heq _]].
    + by apply message_inj in Heq as ->.
    + by apply message_not_fallback in Heq.
  - intros Hk. left. by exists k.
Qed.

Lemma elem_of_suggestions_fallback (g : globals) (text : str)
    (extracted_skills : list str) :
  LOOKS_GOOD_MSG ∈ (generate_suggestions g text extracted_skills).1
  ↔ ∀ k, triggers g text extracted_skills k = false.
Proof.
  rewrite elem_of_suggestions. split.
  - intros [[k [_ Heq]] | [_ Hnone]]; [| done].
    symmetry in Heq. by apply message_not_fallback in Heq.
  - intros Hnone. by right.
Qed.

(** C3. The suggestions returned are the texts of the conditions that
    trigger, in the fixed priority order (missing required skills, no
    projects, too short, too long, no skills detected, no bullets), or the
    single "looks good" text when none triggers; and the "looks good" text
    is among the suggestions exactly when none of the six conditions
    triggers. *)
Theorem generate_suggestions_order (g : globals) (text : str)
    (extracted_skills : list str) :
  (generate_suggestions g text extracted_skills).1
  = match filter (triggers g text extracted_skills) priority with
    | [] => [LOOKS_GOOD_MSG]
    | fired => map (message g extracted_skills) fired
    end ∧
  (LOOKS_GOOD_MSG ∈ (generate_suggestions g text extracted_skills).1
   ↔ ∀ k, triggers g text extracted_skills k = false).
Proof.
  split.
  - by rewrite generate_suggestions_eq.
  - apply elem_of_suggestions_fallback.
Qed.

(** C4. For every text and list of extracted skills the list of missing
    skills returned is the required list without the extracted skills, in
    the order of the required list; it is the same for every text, and it
    is returned whether the suggestion that lists it was appended (the
    list is not empty) or not (it is empty). *)
Theorem missing_skills_spec (g : globals) (text : str) (extracted_skills : list str) :
  (generate_suggestions g text extracted_skills).2
  = list_difference (REQUIRED_SKILLS g) extracted_skills ∧
  (generate_suggestions g text extracted_skills).2 `sublist_of` REQUIRED_SKILLS g ∧
  (∀ skill, skill ∈ (generate_suggestions g text extracted_skills).2
            ↔ skill ∈ REQUIRED_SKILLS g ∧ skill ∉ extracted_skills) ∧
  (∀ text', (generate_suggestions g text' extracted_skills).2
            = (generate_suggestions g text extracted_skills).2) ∧
  (MISSING_SKILLS_PREFIX
     ++ join (str_lit ", ") (generate_suggestions g text extracted_skills).2
   ∈ (generate_suggestions g text extracted_skills).1
   ↔ (generate_suggestions g text extracted_skills).2 ≠ []).
Proof.
  split_and!.
  - by rewrite generate_suggestions_eq.
  - rewrite generate_suggestions_eq. cbn [snd]. unfold missingRequired.
    rewrite <- missing_skills_eq. apply sublist_filter.
  - intros skill. rewrite generate_suggestions_eq. apply list_elem_of_difference.
  - intros text'. by rewrite !generate_suggestions_eq.
  - rewrite (generate_suggestions_eq g text) at 1 3. cbn [snd].
    change (MISSING_SKILLS_PREFIX ++ join (str_lit ", ") (missingRequired g extracted_skills))
      with (message g extracted_skills MissingSkills).
    rewrite elem_of_suggestions_message. cbn [triggers].
    apply bool_decide_eq_true.
Qed.

(** C8. The length thresholds are strict: a text of exactly 150 words
    does not get the too-short suggestion, a text of exactly 700 words does
    not get the too-long suggestion, and no report holds both. *)
Theorem length_thresholds (g : globals) (text : str) (extracted_skills : list str) :
  (wordCount text = 150
   → TOO_SHORT_MSG ∉ (generate_suggestions g text extracted_skills).1) ∧
  (wordCount text = 700
   → TOO_LONG_MSG ∉ (generate_suggestions g text extracted_skills).1) ∧
  ¬ (TOO_SHORT_MSG ∈ (generate_suggestions g text extracted_skills).1 ∧
     TOO_LONG_MSG ∈ (generate_suggestions g text extracted_skills).1).
Proof.
  change TOO_SHORT_MSG with (message g extracted_skills TooShort).
  change TOO_LONG_MSG with (message g extracted_skills TooLong).
  rewrite !elem_of_suggestions_message. cbn [triggers].
  rewrite !bool_decide_eq_true. lia.
Qed.

(** C9. The score and the suggestions read the same signals: the
    no-projects suggestion is in the report exactly when the project score
    is 10, and the bullet-points suggestion exactly when the bullet base of
    the format score (the format score less the section bonus) is 0. *)
Theorem signals_agree (g : globals) (text : str) (extracted_skills : list str) :
  ∃ total skill project format,
    calculate_score g extracted_skills text = Some (total, skill, project, format) ∧
    (NO_PROJECTS_MSG ∈ (generate_suggestions g text extracted_skills).1
     ↔ project = 10) ∧
    (NO_BULLETS_MSG ∈ (generate_suggestions g text extracted_skills).1
     ↔ format - sectionBonus (sectionHitCount text) = 0).
Proof.
  rewrite calculate_score_eq. unfold breakdown. do 4 eexists.
  split; [reflexivity |].
  change NO_PROJECTS_MSG with (message g extracted_skills NoProjects).
  change NO_BULLETS_MSG with (message g extracted_skills NoBullets).
  rewrite !elem_of_suggestions_message, formatting_score_eq. cbn [triggers].
  split.
  - destruct (has_projects text); simpl; split; (done || lia).
  - destruct (hasBullets text); simpl; split; (done || lia).
Qed.

(** ** Further properties of the skill and project detectors *)

Lemma substring_trans (a b c : str) : substring a b → substring b c → substring a c.
Proof.
  intros [x [y ->]] [x' [y' ->]]. exists (x' ++ x), (y ++ y').
  by rewrite <- !app_assoc.
Qed.

Lemma lower_from_ascii (s before after : str) :
  is_ascii s →
  lower_from before (s ++ after)
  = map ascii_lower s ++ lower_from (before ++ s) after.
Proof.
  intros Hs. revert before.
  induction Hs as [|c s Hc Hs IH]; intros before; simpl.
  - by rewrite app_nil_r.
  - rewrite IH, <- app_assoc. simpl. unfold lower_char, ascii_lower.
    destruct ((65 <=? c) && (c <=? 90))%N; [done |].
    by destruct (N.ltb_spec c 128); [| lia].
Qed.

(** An ASCII run of the text shows in the lower-cased text, lower-cased. *)
Lemma substring_lower_ascii (s text : str) :
  is_ascii s → substring s text → substring (map ascii_lower s) (lower text).
Proof.
  intros Hs [before [after ->]]. unfold lower. generalize (@nil N) as seen.
  induction before as [|c before IH]; intros seen; simpl.
  - rewrite lower_from_ascii by done. by exists [], (lower_from (seen ++ s) after).
  - destruct (IH (seen ++ [c])) as [x [y ->]].
    exists (lower_char seen c (before ++ s ++ after) ++ x), y.
    by rewrite <- app_assoc.
Qed.

Lemma has_projects_true (text : str) :
  has_projects text = true ↔ ∃ word, word ∈ keywords ∧ substring word (lower text).
Proof.
  unfold has_projects. rewrite existsb_exists. split.
  - intros [word [Hin Hsub]]. exists word.
    split; [by apply list_elem_of_In | by apply str_in_spec].
  - intros [word [Hin Hsub]]. exists word.
    split; [by apply list_elem_of_In | by apply str_in_spec].
Qed.

(** X1. Skill detection ignores the case of ASCII letters: when the text
    holds an ASCII spelling whose lower case is a known skill, that skill is
    extracted. *)
Theorem extract_skills_any_case (g : globals) (text spelling skill : str) :
  skill ∈ KNOWN_SKILLS g →
  is_ascii spelling →
  map ascii_lower spelling = skill →
  substring spelling text →
  skill ∈ extract_skills g text.
Proof.
  intros Hknown Hascii <- Hsub. apply elem_of_extract_skills.
  split; [done |]. apply str_in_spec. by apply substring_lower_ascii.
Qed.

(** X2. Extraction is closed under sub-skills: when a known skill occurs
    inside another skill that was extracted (as "git" does in "github"), it
    is extracted too. *)
Theorem extract_skills_sub_skill (g : globals) (text inner outer : str) :
  inner ∈ KNOWN_SKILLS g →
  substring inner outer →
  outer ∈ extract_skills g text →
  inner ∈ extract_skills g text.
Proof.
  intros Hknown Hsub Houter.
  apply elem_of_extract_skills in Houter as [_ Houter].
  apply elem_of_extract_skills. split; [done |].
  apply str_in_spec. apply (substring_trans _ outer); [done |].
  by apply str_in_spec.
Qed.

(** X3. The project score is 30 as soon as the text holds an ASCII
    spelling, in any letter case, of one of the project keywords. *)
Theorem project_score_any_case (g : globals) (extracted_skills : list str)
    (text spelling : str) :
  map ascii_lower spelling ∈ keywords →
  is_ascii spelling →
  substring spelling text →
  has_projects text = true ∧
  ∃ total skill format,
    calculate_score g extracted_skills text = Some (total, skill, 30, format).
Proof.
  intros Hkey Hascii Hsub.
  assert (has_projects text = true) as Hp.
  { apply has_projects_true. exists (map ascii_lower spelling).
    split; [done | by apply substring_lower_ascii]. }
  split; [done |]. rewrite calculate_score_eq, Hp. unfold breakdown. by do 3 eexists.
Qed.

(** ** Further properties of the score *)

Lemma calculate_score_app (extracted_skills : list str) (text : str) :
  calculate_score app_globals extracted_skills text
  = Some (breakdown
            (PyFloat (float_of_Z (matches_of app_globals extracted_skills)
                      / float_of_Z 8 * float_of_Z 50))
            (if has_projects text then 30 else 10)
            (formatting_score text)).
Proof. by rewrite calculate_score_eq. Qed.

Lemma length_filter_all {A} (P : A → Prop) `{∀ x, Decision (P x)} (l : list A) :
  length (filter P l) = length l ↔ Forall P l.
Proof.
  induction l as [|x l IH].
  - split; [constructor | done].
  - rewrite filter_cons. destruct (decide (P x)) as [Hx | Hx].
    + cbn [length]. rewrite Forall_cons. split.
      * intros Hlen. split; [done |]. apply IH. lia.
      * intros [_ Hl]. f_equal. by apply IH.
    + pose proof (length_filter P l). cbn [length]. rewrite Forall_cons.
      split; [lia | tauto].
Qed.

Lemma matches_of_full (g : globals) (extracted_skills : list str) :
  matches_of g extracted_skills = len (REQUIRED_SKILLS g)
  ↔ ∀ skill, skill ∈ REQUIRED_SKILLS g → skill ∈ extracted_skills.
Proof.
  unfold matches_of, len. rewrite Nat2Z.inj_iff, length_filter_all.
  apply Forall_forall.
Qed.

Lemma matches_of_mono (g : globals) (extracted_skills extracted_skills' : list str) :
  extracted_skills ⊆ extracted_skills' →
  matches_of g extracted_skills <= matches_of g extracted_skills'.
Proof.
  intros Hsub. unfold matches_of, len. apply Nat2Z.inj_le.
  induction (REQUIRED_SKILLS g) as [|r required IH]; [done |].
  rewrite !filter_cons.
  destruct (decide (r ∈ extracted_skills)) as [Hin | Hnotin].
  - rewrite decide_True by auto. cbn [length]. lia.
  - destruct (decide (r ∈ extracted_skills')); cbn [length]; lia.
Qed.

Lemma formatting_score_full (text : str) :
  formatting_score text = 20
  ↔ hasBullets text = true ∧ (3 ≤ sectionHitCount text)%nat.
Proof.
  rewrite formatting_score_eq.
  destruct (hasBullets text), (sectionHitCount text) as [|[|[|hits]]]; simpl;
    split; try lia; intros [? ?]; (done || lia).
Qed.

(** A total of 100.0 needs every signal at its top value. *)
Lemma total_full (m p f : Z) :
  m ∈ [0; 1; 2; 3; 4; 5; 6; 7; 8] → p ∈ [10; 30] → f ∈ [2; 4; 8; 10; 12; 16; 20] →
  (breakdown (PyFloat (float_of_Z m / float_of_Z 8 * float_of_Z 50)) p f).1.1.1
  = PyFloat 100
  ↔ m = 8 ∧ p = 30 ∧ f = 20.
Proof.
  intros Hm Hp Hf. elem_cases Hm; elem_cases Hp; elem_cases Hf;
    (split;
     [ intros Heq;
       apply (f_equal (fun v => pynum_eqb v (PyFloat 100))) in Heq;
       vm_compute in Heq;
       first [ discriminate | split_and!; reflexivity ]
     | intros (? & ? & ?); first [ lia | vm_compute; reflexivity ] ]).
Qed.

(** The totals and skill scores grow with the number of matches. *)
Lemma breakdown_mono (m m' p f : Z) :
  m ∈ [0; 1; 2; 3; 4; 5; 6; 7; 8] → m' ∈ [0; 1; 2; 3; 4; 5; 6; 7; 8] → m <= m' →
  p ∈ [10; 30] → f ∈ [2; 4; 8; 10; 12; 16; 20] →
  py_leb (breakdown (PyFloat (float_of_Z m / float_of_Z 8 * float_of_Z 50)) p f).1.1.2
         (breakdown (PyFloat (float_of_Z m' / float_of_Z 8 * float_of_Z 50)) p f).1.1.2
  = true ∧
  py_leb (breakdown (PyFloat (float_of_Z m / float_of_Z 8 * float_of_Z 50)) p f).1.1.1
         (breakdown (PyFloat (float_of_Z m' / float_of_Z 8 * float_of_Z 50)) p f).1.1.1
  = true.
Proof.
  intros Hm Hm' Hle Hp Hf. elem_cases Hm; elem_cases Hm'; try lia;
    elem_cases Hp; elem_cases Hf; by vm_compute.
Qed.

Lemma project_score_cases (text : str) :
  (if has_projects text then 30 else 10) ∈ [10; 30].
Proof. destruct (has_projects text); set_solver. Qed.

(** X4. The skill score returned is the number of required skills found,
    times 6.25, rounded half to even to one decimal: 0.0, 6.2, 12.5, 18.8,
    25.0, 31.2, 37.5, 43.8 or 50.0 for 0 to 8 skills found. *)
Theorem skill_score_values (extracted_skills : list str) (text : str) :
  ∃ total skill project format tenths,
    calculate_score app_globals extracted_skills text
    = Some (total, skill, project, format) ∧
    [0; 62; 125; 188; 250; 312; 375; 438; 500]
      !! length (filter (fun s => s ∈ extracted_skills) (REQUIRED_SKILLS app_globals))
    = Some tenths ∧
    skill = PyFloat (float_of_Z tenths / float_of_Z 10).
Proof.
  rewrite calculate_score_app. unfold breakdown, matches_of, len.
  pose proof (length_filter (fun s => s ∈ extracted_skills)
                (REQUIRED_SKILLS app_globals)) as Hle.
  change (length (REQUIRED_SKILLS app_globals)) with 8%nat in Hle.
  revert Hle. generalize (length (filter (fun s => s ∈ extracted_skills)
                                    (REQUIRED_SKILLS app_globals))).
  intros n Hn.
  do 9 (destruct n as [|n];
        [do 5 eexists; split_and!; [reflexivity | reflexivity | by vm_compute] |]).
  lia.
Qed.

(** X5. The total is 100.0 exactly when every required skill is among the
    extracted ones, the text mentions a project, has a bullet character and
    names at least three of the five sections. *)
Theorem full_marks_iff (extracted_skills : list str) (text : str) :
  ∃ total skill project format,
    calculate_score app_globals extracted_skills text
    = Some (total, skill, project, format) ∧
    (total = PyFloat 100
     ↔ (∀ s, s ∈ REQUIRED_SKILLS app_globals → s ∈ extracted_skills) ∧
       has_projects text = true ∧
       hasBullets text = true ∧
       (3 ≤ sectionHitCount text)%nat).
Proof.
  rewrite calculate_score_app. do 4 eexists. split; [reflexivity |].
  rewrite <- matches_of_full, <- formatting_score_full.
  change (len (REQUIRED_SKILLS app_globals)) with 8.
  etrans; [apply total_full |].
  - apply matches_of_range.
  - apply project_score_cases.
  - apply formatting_score_cases.
  - destruct (has_projects text); intuition (done || lia).
Qed.

(** X6. For a given text, extracting more skills never lowers the skill
    score nor the total. *)
Theorem score_monotone_in_skills (extracted_skills extracted_skills' : list str)
    (text : str) :
  extracted_skills ⊆ extracted_skills' →
  ∃ total skill total' skill' project format,
    calculate_score app_globals extracted_skills text
    = Some (total, skill, project, format) ∧
    calculate_score app_globals extracted_skills' text
    = Some (total', skill', project, format) ∧
    py_leb skill skill' = true ∧
    py_leb total total' = true.
Proof.
  intros Hsub. rewrite !calculate_score_app.
  destruct (breakdown_mono (matches_of app_globals extracted_skills)
              (matches_of app_globals extracted_skills')
              (if has_projects text then 30 else 10) (formatting_score text))
    as [Hskill Htotal].
  - apply matches_of_range.
  - apply matches_of_range.
  - by apply matches_of_mono.
  - apply project_score_cases.
  - apply formatting_score_cases.
  - do 6 eexists. split_and!; [reflexivity | reflexivity | exact Hskill | exact Htotal].
Qed.

(** ** Further properties of the suggestions *)

Lemma priority_NoDup : NoDup priority.
Proof.
  unfold priority.
  repeat (apply NoDup_cons;
          split; [rewrite ?elem_of_cons, elem_of_nil; intuition discriminate |]).
  apply NoDup_nil_2.
Qed.

Lemma fired_NoDup (g : globals) (text : str) (extracted_skills : list str) :
  NoDup (map (message g extracted_skills)
             (filter (triggers g text extracted_skills) priority)).
Proof.
  apply (NoDup_fmap_2_strong (message g extracted_skills)).
  - intros k k' _ _ Heq. by apply message_inj in Heq.
  - apply NoDup_filter, priority_NoDup.
Qed.

(** The two length conditions never trigger together, so at most five of
    the six conditions do. *)
Lemma fired_length (g : globals) (text : str) (extracted_skills : list str) :
  (length (filter (triggers g text extracted_skills) priority) ≤ 5)%nat.
Proof.
  unfold priority. rewrite !filter_cons_bool, filter_nil.
  destruct (triggers g text extracted_skills TooShort) eqn:Hshort,
    (triggers g text extracted_skills TooLong) eqn:Hlong.
  - cbn [triggers] in Hshort, Hlong.
    apply bool_decide_eq_true in Hshort. apply bool_decide_eq_true in Hlong. lia.
  - destruct (triggers g text extracted_skills MissingSkills),
      (triggers g text extracted_skills NoProjects),
      (triggers g text extracted_skills NoSkills),
      (triggers g text extracted_skills NoBullets); simpl; lia.
  - destruct (triggers g text extracted_skills MissingSkills),
      (triggers g text extracted_skills NoProjects),
      (triggers g text extracted_skills NoSkills),
      (triggers g text extracted_skills NoBullets); simpl; lia.
  - destruct (triggers g text extracted_skills MissingSkills),
      (triggers g text extracted_skills NoProjects),
      (triggers g text extracted_skills NoSkills),
      (triggers g text extracted_skills NoBullets); simpl; lia.
Qed.

Lemma missingRequired_nil (g : globals) (extracted_skills : list str) :
  missingRequired g extracted_skills = []
  ↔ ∀ skill, skill ∈ REQUIRED_SKILLS g → skill ∈ extracted_skills.
Proof.
  unfold missingRequired. split.
  - intros Hnil skill Hreq.
    destruct (decide (skill ∈ extracted_skills)) as [Hin | Hnotin]; [done |].
    assert (skill ∈ list_difference (REQUIRED_SKILLS g) extracted_skills) as Hd
      by by apply list_elem_of_difference.
    rewrite Hnil in Hd. by apply elem_of_nil in Hd.
  - intros Hall.
    destruct (list_difference (REQUIRED_SKILLS g) extracted_skills)
      as [|skill missing] eqn:Hd; [done |].
    assert (skill ∈ list_difference (REQUIRED_SKILLS g) extracted_skills) as Hin
      by (rewrite Hd; left).
    apply list_elem_of_difference in Hin as [Hreq Hnotin].
    by destruct Hnotin; apply Hall.
Qed.

(** X7. Every report holds between one and five suggestions, and none of
    them twice. *)
Theorem suggestions_count (g : globals) (text : str) (extracted_skills : list str) :
  (1 ≤ length (generate_suggestions g text extracted_skills).1 ≤ 5)%nat ∧
  NoDup (generate_suggestions g text extracted_skills).1.
Proof.
  rewrite generate_suggestions_eq. cbn [fst].
  pose proof (fired_length g text extracted_skills) as Hlen.
  pose proof (fired_NoDup g text extracted_skills) as Hnd.
  destruct (filter (triggers g text extracted_skills) priority) as [|k fired].
  - split; [simpl; lia | apply NoDup_singleton].
  - split; [| done]. change (map ?f ?l) with (f <$> l). rewrite length_fmap.
    simpl in *. lia.
Qed.

(** X8. When the report says the resume looks good, that is its only
    suggestion, no required skill is missing, the skill score is 50.0, the
    project score 30, the format score at least 10 and the total at least
    90.0. *)
Theorem looks_good_score (text : str) (extracted_skills : list str) :
  LOOKS_GOOD_MSG ∈ (generate_suggestions app_globals text extracted_skills).1 →
  generate_suggestions app_globals text extracted_skills = ([LOOKS_GOOD_MSG], []) ∧
  ∃ total format,
    calculate_score app_globals extracted_skills text
    = Some (total, PyFloat 50, 30, format) ∧
    10 <= format ∧
    py_leb (PyFloat 90) total = true.
Proof.
  intros Hgood.
  pose proof (proj1 (elem_of_suggestions_fallback _ _ _) Hgood) as Hnone.
  clear Hgood. rename Hnone into Hgood.
  pose proof (Hgood MissingSkills) as Hmissing.
  pose proof (Hgood NoProjects) as Hprojects.
  pose proof (Hgood NoBullets) as Hbullets.
  cbn [triggers] in Hmissing, Hprojects, Hbullets.
  apply bool_decide_eq_false in Hmissing.
  assert (missingRequired app_globals extracted_skills = []) as Hnil
    by (destruct (missingRequired app_globals extracted_skills); [done | by destruct Hmissing]).
  apply negb_false_iff in Hprojects. apply negb_false_iff in Hbullets.
  split.
  - rewrite generate_suggestions_eq, Hnil. unfold priority.
    rewrite !filter_cons_bool, filter_nil, !Hgood. reflexivity.
  - rewrite calculate_score_app, Hprojects, formatting_score_eq, Hbullets.
    rewrite (proj2 (matches_of_full _ _) (proj1 (missingRequired_nil _ _) Hnil)).
    change (len (REQUIRED_SKILLS app_globals)) with 8.
    pose proof (sectionBonus_cases (sectionHitCount text)) as Hb.
    revert Hb. generalize (sectionBonus (sectionHitCount text)). intros b Hb.
    elem_cases Hb; do 2 eexists; (split_and!; [by vm_compute | lia | by vm_compute]).
Qed.

(** X9. When the extracted skills are those of the text itself, the
    missing skills are the required skills that do not occur in the
    lower-cased text, and the no-skills suggestion is given exactly when no
    known skill occurs in it. *)
Theorem pipeline_missing_skills (text : str) :
  (∀ skill,
      skill ∈ (generate_suggestions app_globals text
                 (extract_skills app_globals text)).2
      ↔ skill ∈ REQUIRED_SKILLS app_globals ∧ ¬ substring skill (lower text)) ∧
  (NO_SKILLS_MSG ∈ (generate_suggestions app_globals text
                      (extract_skills app_globals text)).1
   ↔ ∀ skill, skill ∈ KNOWN_SKILLS app_globals → ¬ substring skill (lower text)).
Proof.
  split.
  - intros skill. rewrite generate_suggestions_eq. cbn [snd]. unfold missingRequired.
    rewrite list_elem_of_difference, elem_of_extract_skills, str_in_spec.
    assert (Forall (fun s => s ∈ KNOWN_SKILLS app_globals)
                   (REQUIRED_SKILLS app_globals)) as Hsub
      by (apply (bool_decide_unpack _); by vm_compute).
    split; intros [Hreq Hnot]; (split; [done |]).
    + intros Hin. apply Hnot. split; [| done].
      by apply (proj1 (Forall_forall _ _) Hsub).
    + intros [_ Hin]. by apply Hnot.
  - change NO_SKILLS_MSG
      with (message app_globals (extract_skills app_globals text) NoSkills).
    rewrite elem_of_suggestions_message. cbn [triggers].
    rewrite bool_decide_eq_true. split.
    + intros Hnil skill Hknown Hsub.
      assert (skill ∈ extract_skills app_globals text) as Hin
        by (apply elem_of_extract_skills; split; [done | by apply str_in_spec]).
      rewrite Hnil in Hin. by apply elem_of_nil in Hin.
    + intros Hnone.
      destruct (extract_skills app_globals text) as [|skill skills] eqn:Hext; [done |].
      assert (skill ∈ extract_skills app_globals text) as Hin by (rewrite Hext; left).
      apply elem_of_extract_skills in Hin as [Hknown Hin].
      apply str_in_spec in Hin. by destruct (Hnone skill).
Qed.

(** ** Pages and words *)








Lemma page_texts_cons (page_text : str) (pages : list (option str)) :
  page_texts (Some page_text :: pages)
  = if truthy page_text then page_text ++ [10%N] ++ page_texts pages
    else page_texts pages.
Proof.
  unfold page_texts.
  change (omap id (Some page_text :: pages)) with (page_text :: omap id pages).
  rewrite filter_cons. destruct page_text as [|c page_text]; cbn [truthy].
  - by rewrite decide_False by auto.
  - rewrite decide_True by done. cbn [map concat]. by rewrite <- !app_assoc.
Qed.

Lemma extract_text_loop (pages : list (option str)) (text : str) :
  foldl (fun text page_text =>
           match page_text with
           | Some page_text =>
               if truthy page_text then text ++ (page_text ++ [10%N]) else text
           | None => text
           end) text pages
  = text ++ page_texts pages.
Proof.
  revert text. induction pages as [|[page_text|] pages IH]; intros text; cbn [foldl].
  - by rewrite app_nil_r.
  - rewrite IH, page_texts_cons. destruct (truthy page_text); [| done].
    by rewrite <- !app_assoc.
  - by rewrite IH.
Qed.

Lemma extract_text_from_pdf_eq (name : str) (pages : list (option str)) :
  extract_text_from_pdf {| filename := name; pdf_pages := Some pages |}
  = Some (page_texts pages).
Proof. unfold extract_text_from_pdf. cbn. by rewrite extract_text_loop. Qed.


(** White space ends a word: the words on its two sides are split apart. *)
Lemma split_from_space (word before after : str) (c : N) :
  isspace c = true →
  split_from word (before ++ c :: after) = split_from word before ++ split after.
Proof.
  intros Hc. revert word.
  induction before as [|d before IH]; intros word; cbn [app split_from].
  - rewrite Hc. by destruct word.
  - destruct (isspace d); [| apply IH]. destruct word; by rewrite IH.
Qed.

Lemma split_page_texts (pages : list (option str)) :
  split (page_texts pages) = concat (map split (omap id pages)).
Proof.
  induction pages as [|[page_text|] pages IH]; [done | | done].
  rewrite page_texts_cons.
  change (omap id (Some page_text :: pages)) with (page_text :: omap id pages).
  cbn [map concat].
  destruct page_text as [|c page_text]; cbn [truthy]; [done |].
  change ([10%N] ++ page_texts pages) with (10%N :: page_texts pages).
  unfold split at 1 2. by rewrite split_from_space, IH.
Qed.

Lemma sum_from (l : list Z) (acc : Z) : foldl Z.add acc l = acc + sum l.
Proof.
  unfold sum. revert acc. induction l as [|x l IH]; intros acc; cbn [foldl]; [lia |].
  rewrite (IH (acc + x)), (IH (0 + x)). lia.
Qed.

(** X10. The words of the extracted text are the words of the pages, page
    after page: the newline added after each page keeps the last word of a
    page apart from the first word of the next, and the word count of the
    document is the sum of the word counts of its pages. *)
Theorem extract_text_words (name : str) (pages : list (option str)) :
  ∃ text,
    extract_text_from_pdf {| filename := name; pdf_pages := Some pages |} = Some text ∧
    split text = concat (map split (omap id pages)) ∧
    wordCount text = sum (map wordCount (omap id pages)).
Proof.
  rewrite extract_text_from_pdf_eq. eexists. split; [reflexivity |].
  split; [apply split_page_texts |].
  unfold wordCount. rewrite split_page_texts.
  induction (omap id pages) as [|page_text texts IH]; [done |].
  cbn [map concat]. unfold sum. cbn [foldl]. rewrite sum_from, <- IH.
  unfold len. rewrite length_app. lia.
Qed.

(** ** The route *)

Lemma endswith_pdf_nonempty (name : str) :
  endswith (str_lit ".pdf") (lower name) = true → name ≠ [].
Proof. by intros Hext ->. Qed.

Lemma filename_check (name : str) :
  negb (truthy name) || bool_decide (name = []) = bool_decide (name = []).
Proof. by destruct name. Qed.

(** The ways through [home], one per outcome. *)
Lemma home_not_post (g : globals) (method : str) (file : option FileStorage) :
  method ≠ str_lit "POST" → home g method file = Some (index_html None).
Proof. intros Hm. unfold home. by rewrite bool_decide_eq_false_2. Qed.

Lemma home_post_pdf (g : globals) (name : str) (pages : option (list (option str))) :
  endswith (str_lit ".pdf") (lower name) = true →
  home g (str_lit "POST") (Some {| filename := name; pdf_pages := pages |})
  = match pages with
    | None => None
    | Some pages =>
        if truthy (strip (page_texts pages))
        then
          Some (result_html
                  (breakdown (skill_score_of g (extract_skills g (page_texts pages)))
                     (if has_projects (page_texts pages) then 30 else 10)
                     (formatting_score (page_texts pages))).1.1.1
                  (round1 (skill_score_of g (extract_skills g (page_texts pages))))
                  (if has_projects (page_texts pages) then 30 else 10)
                  (formatting_score (page_texts pages))
                  (extract_skills g (page_texts pages))
                  (generate_suggestions g (page_texts pages)
                     (extract_skills g (page_texts pages))).2
                  (generate_suggestions g (page_texts pages)
                     (extract_skills g (page_texts pages))).1)
        else Some (index_html (Some NO_TEXT_MSG))
    end.
Proof.
  intros Hext. pose proof (endswith_pdf_nonempty name Hext) as Hname.
  unfold home. rewrite bool_decide_eq_true_2 by done.
  cbn [filename]. rewrite filename_check, bool_decide_eq_false_2 by done.
  rewrite Hext. cbn [negb]. destruct pages as [pages |]; [| reflexivity].
  rewrite extract_text_from_pdf_eq. cbn [mbind option_bind].
  destruct (truthy (strip (page_texts pages))); cbn [negb]; [| reflexivity].
  rewrite calculate_score_eq. cbn [mbind option_bind breakdown].
  by destruct (generate_suggestions g (page_texts pages)
                 (extract_skills g (page_texts pages))).
Qed.

Lemma home_post_not_pdf (g : globals) (file : option FileStorage) :
  (∀ upload, file = Some upload →
             endswith (str_lit ".pdf") (lower (filename upload)) = false) →
  ∃ error, home g (str_lit "POST") file = Some (index_html (Some error)).
Proof.
  intros Hext. unfold home. rewrite bool_decide_eq_true_2 by done.
  destruct file as [upload |]; [| by eexists].
  rewrite filename_check. destruct (bool_decide (filename upload = [])); [by eexists |].
  rewrite (Hext upload) by done. by eexists.
Qed.



(** X13. On every result page the skills shown are known skills in strictly
    increasing order, the missing skills are the required skills that are not
    among the skills shown, in the order of the required list, the no-skills
    suggestion is given exactly when no skill is shown and the no-projects
    suggestion exactly when the project score is 10. *)
Theorem home_result_consistent (g : globals) (method : str)
    (file : option FileStorage) (score skill_score : pynum)
    (project_score format_score : Z) (skills missing_skills suggestions : list str) :
  home g method file
  = Some (result_html score skill_score project_score format_score
                      skills missing_skills suggestions) →
  StronglySorted str_lt skills ∧
  skills ⊆ KNOWN_SKILLS g ∧
  missing_skills `sublist_of` REQUIRED_SKILLS g ∧
  (∀ skill, skill ∈ REQUIRED_SKILLS g → (skill ∈ missing_skills ↔ skill ∉ skills)) ∧
  (NO_SKILLS_MSG ∈ suggestions ↔ skills = []) ∧
  (NO_PROJECTS_MSG ∈ suggestions ↔ project_score = 10).
Proof.
  intros Hhome.
  destruct (decide (method = str_lit "POST")) as [-> | Hm];
    [| by rewrite home_not_post in Hhome].
  destruct file as [[name pages] |];
    [| by destruct (home_post_not_pdf g None) as [e He]; [| rewrite He in Hhome]].
  destruct (endswith (str_lit ".pdf") (lower name)) eqn:Hext.
  - rewrite home_post_pdf in Hhome by done.
    destruct pages as [pages |]; [| done].
    destruct (truthy (strip (page_texts pages))); [| done].
    set (text := page_texts pages) in *.
    remember (extract_skills g text) as extracted eqn:Hextracted.
    remember (generate_suggestions g text extracted) as report eqn:Hreport.
    remember (has_projects text) as projects eqn:Hprojects.
    remember (formatting_score text) as format eqn:Hformat.
    remember (skill_score_of g extracted) as raw eqn:Hraw.
    injection Hhome as _ _ <- _ <- <- <-.
    subst extracted report.
    split_and!.
    + apply extract_skills_sorted.
    + intros skill Hin. by apply elem_of_extract_skills in Hin as [? _].
    + rewrite generate_suggestions_eq. cbn [snd]. unfold missingRequired.
      rewrite <- missing_skills_eq. apply sublist_filter.
    + intros skill Hreq. rewrite generate_suggestions_eq. cbn [snd].
      unfold missingRequired. rewrite list_elem_of_difference. tauto.
    + change NO_SKILLS_MSG with (message g (extract_skills g text) NoSkills).
      rewrite elem_of_suggestions_message. cbn [triggers].
      apply bool_decide_eq_true.
    + change NO_PROJECTS_MSG with (message g (extract_skills g text) NoProjects).
      rewrite elem_of_suggestions_message. cbn [triggers]. rewrite <- Hprojects.
      destruct projects; simpl; split; (done || lia).
  - destruct (home_post_not_pdf g
                (Some {| filename := name; pdf_pages := pages |})) as [e He].
    + by intros upload [= <-].
    + by rewrite He in Hhome.
Qed.

Lemma substring_page_texts (pages : list (option str)) (page_text s : str) :
  Some page_text ∈ pages → substring s page_text → substring s (page_texts pages).
Proof.
  intros Hin Hsub. induction pages as [|[t|] pages IH].
  - by apply elem_of_nil in Hin.
  - rewrite page_texts_cons. apply elem_of_cons in Hin as [[= <-] | Hin].
    + destruct page_text as [|c page_text]; cbn [truthy].
      * destruct Hsub as [x [y Heq]]. symmetry in Heq.
        apply app_eq_nil in Heq as [-> Heq]. apply app_eq_nil in Heq as [-> ->].
        by exists [], (page_texts pages).
      * apply (substring_trans _ (c :: page_text)); [done |].
        by exists [], ([10%N] ++ page_texts pages).
    + destruct (truthy t); [| by apply IH].
      apply (substring_trans _ (page_texts pages)); [by apply IH |].
      exists (t ++ [10%N]), []. by rewrite app_nil_r, <- app_assoc.
  - apply elem_of_cons in Hin as [Heq | Hin]; [done |]. by apply IH.
Qed.

(** X14. A known skill spelled in ASCII, in any letter case, on any page of
    the upload is among the skills of the result page. *)
Theorem home_shows_page_skills (g : globals) (method : str) (upload : FileStorage)
    (pages : list (option str)) (page_text spelling : str)
    (score skill_score : pynum) (project_score format_score : Z)
    (skills missing_skills suggestions : list str) :
  home g method (Some upload)
  = Some (result_html score skill_score project_score format_score
                      skills missing_skills suggestions) →
  pdf_pages upload = Some pages →
  Some page_text ∈ pages →
  substring spelling page_text →
  is_ascii spelling →
  map ascii_lower spelling ∈ KNOWN_SKILLS g →
  map ascii_lower spelling ∈ skills.
Proof.
  intros Hhome Hpages Hin Hsub Hascii Hknown.
  destruct (decide (method = str_lit "POST")) as [-> | Hm];
    [| by rewrite home_not_post in Hhome].
  destruct upload as [name pages']. cbn [pdf_pages] in Hpages. subst pages'.
  destruct (endswith (str_lit ".pdf") (lower name)) eqn:Hext.
  - rewrite home_post_pdf in Hhome by done.
    destruct (truthy (strip (page_texts pages))); [| done].
    remember (extract_skills g (page_texts pages)) as extracted eqn:Hextracted.
    remember (generate_suggestions g (page_texts pages) extracted) as report.
    remember (has_projects (page_texts pages)) as projects.
    remember (formatting_score (page_texts pages)) as format.
    remember (skill_score_of g extracted) as raw.
    injection Hhome as _ _ _ _ <- _ _. subst extracted.
    apply elem_of_extract_skills. split; [done |].
    apply str_in_spec, substring_lower_ascii; [done |].
    by apply (substring_page_texts pages page_text).
  - destruct (home_post_not_pdf g
                (Some {| filename := name; pdf_pages := Some pages |})) as [e He].
    + by intros upload [= <-].
    + by rewrite He in Hhome.
Qed.

End Engine.

(** ** The scenarios of the specification

    On ASCII text and the bullet, which has no lower case, [lower] does not
    depend on the Unicode table. *)

Example scenario_empty_text :
  extract_skills no_unicode_lower app_globals [] = [] ∧
  calculate_score no_unicode_lower app_globals [] []
  = Some (PyFloat 12, PyFloat 0, 10, 2) ∧
  generate_suggestions no_unicode_lower app_globals [] []
  = ([MISSING_SKILLS_PREFIX
      ++ str_lit "python, html, css, javascript, sql, git, github, machine learning";
      NO_PROJECTS_MSG; TOO_SHORT_MSG; NO_SKILLS_MSG; NO_BULLETS_MSG],
     REQUIRED_SKILLS app_globals).
Proof. split_and!; vm_compute; reflexivity. Qed.

Example scenario_sample_resume :
  calculate_score no_unicode_lower app_globals
    (extract_skills no_unicode_lower app_globals sample_resume) sample_resume
  = Some (PyFloat 100, PyFloat 50, 30, 20) ∧
  generate_suggestions no_unicode_lower app_globals sample_resume
    (extract_skills no_unicode_lower app_globals sample_resume)
  = ([LOOKS_GOOD_MSG], []).
Proof. split; vm_compute; reflexivity. Qed.

(** ** Instances

    The length thresholds at texts of exactly 150 and 700 words. *)

Lemma length_thresholds_witness :
  (TOO_SHORT_MSG
   ∉ (generate_suggestions no_unicode_lower app_globals
        (concat (replicate 150 (str_lit "word "))) []).1) ∧
  (TOO_LONG_MSG
   ∉ (generate_suggestions no_unicode_lower app_globals
        (concat (replicate 700 (str_lit "word "))) []).1).
Proof.
  split.
  - apply (proj1 (length_thresholds no_unicode_lower app_globals
                    (concat (replicate 150 (str_lit "word "))) [])).
    vm_compute. reflexivity.
  - apply (proj1 (proj2 (length_thresholds no_unicode_lower app_globals
                    (concat (replicate 700 (str_lit "word "))) []))).
    vm_compute. reflexivity.
Defined.

(** ** Instances of the further properties *)

Lemma extract_skills_any_case_witness :
  str_lit "python"
  ∈ extract_skills no_unicode_lower app_globals (str_lit "I write PyThOn daily").
Proof.
  apply (extract_skills_any_case no_unicode_lower app_globals
           (str_lit "I write PyThOn daily") (str_lit "PyThOn") (str_lit "python")).
  - apply (bool_decide_unpack _). by vm_compute.
  - apply (bool_decide_unpack _). by vm_compute.
  - reflexivity.
  - by exists (str_lit "I write "), (str_lit " daily").
Defined.

Lemma extract_skills_sub_skill_witness :
  str_lit "git" ∈ extract_skills no_unicode_lower app_globals (str_lit "see GitHub").
Proof.
  apply (extract_skills_sub_skill no_unicode_lower app_globals
           (str_lit "see GitHub") (str_lit "git") (str_lit "github")).
  - apply (bool_decide_unpack _). by vm_compute.
  - by exists [], (str_lit "hub").
  - apply (bool_decide_unpack _). by vm_compute.
Defined.

Lemma project_score_any_case_witness :
  has_projects no_unicode_lower (str_lit "BUILT a compiler") = true ∧
  ∃ total skill format,
    calculate_score no_unicode_lower app_globals [] (str_lit "BUILT a compiler")
    = Some (total, skill, 30, format).
Proof.
  apply (project_score_any_case no_unicode_lower app_globals []
           (str_lit "BUILT a compiler") (str_lit "BUILT")).
  - apply (bool_decide_unpack _). by vm_compute.
  - apply (bool_decide_unpack _). by vm_compute.
  - by exists [], (str_lit " a compiler").
Defined.

Lemma score_monotone_in_skills_witness :
  ∃ total skill total' skill' project format,
    calculate_score no_unicode_lower app_globals [str_lit "git"] (str_lit "- built")
    = Some (total, skill, project, format) ∧
    calculate_score no_unicode_lower app_globals [str_lit "sql"; str_lit "git"]
                    (str_lit "- built")
    = Some (total', skill', project, format) ∧
    py_leb skill skill' = true ∧
    py_leb total total' = true.
Proof.
  apply (score_monotone_in_skills no_unicode_lower [str_lit "git"]
           [str_lit "sql"; str_lit "git"] (str_lit "- built")).
  apply (bool_decide_unpack _). by vm_compute.
Defined.

Lemma looks_good_score_witness :
  generate_suggestions no_unicode_lower app_globals sample_resume
    (extract_skills no_unicode_lower app_globals sample_resume)
  = ([LOOKS_GOOD_MSG], []) ∧
  ∃ total format,
    calculate_score no_unicode_lower app_globals
      (extract_skills no_unicode_lower app_globals sample_resume) sample_resume
    = Some (total, PyFloat 50, 30, format) ∧
    10 <= format ∧
    py_leb (PyFloat 90) total = true.
Proof.
  apply (looks_good_score no_unicode_lower sample_resume
           (extract_skills no_unicode_lower app_globals sample_resume)).
  apply (bool_decide_unpack _). by vm_compute.
Defined.

Lemma home_result_consistent_witness :
  ∃ score skill_score project_score format_score skills missing_skills suggestions,
    home no_unicode_lower app_globals (str_lit "POST")
      (Some {| filename := str_lit "cv.PDF";
               pdf_pages := Some [Some (str_lit "python -"); None; Some [];
                                  Some (str_lit "projects git")] |})
    = Some (result_html score skill_score project_score format_score
                        skills missing_skills suggestions) ∧
    (StronglySorted str_lt skills ∧
     skills ⊆ KNOWN_SKILLS app_globals ∧
     missing_skills `sublist_of` REQUIRED_SKILLS app_globals ∧
     (∀ skill, skill ∈ REQUIRED_SKILLS app_globals
               → (skill ∈ missing_skills ↔ skill ∉ skills)) ∧
     (NO_SKILLS_MSG ∈ suggestions ↔ skills = []) ∧
     (NO_PROJECTS_MSG ∈ suggestions ↔ project_score = 10)).
Proof.
  do 7 eexists. split; [vm_compute; reflexivity |].
  apply (home_result_consistent no_unicode_lower app_globals (str_lit "POST")
           (Some {| filename := str_lit "cv.PDF";
                    pdf_pages := Some [Some (str_lit "python -"); None; Some [];
                                       Some (str_lit "projects git")] |})
           (PyFloat 54.5) (PyFloat 12.5) 30 12).
  vm_compute. reflexivity.
Defined.

Lemma home_shows_page_skills_witness :
  str_lit "git"
  ∈ [str_lit "c"; str_lit "git"; str_lit "python"].
Proof.
  apply (home_shows_page_skills no_unicode_lower app_globals (str_lit "POST")
           {| filename := str_lit "cv.PDF";
              pdf_pages := Some [Some (str_lit "python -"); None; Some [];
                                 Some (str_lit "projects Git")] |}
           [Some (str_lit "python -"); None; Some []; Some (str_lit "projects Git")]
           (str_lit "projects Git") (str_lit "Git")
           (PyFloat 54.5) (PyFloat 12.5) 30 12
           [str_lit "c"; str_lit "git"; str_lit "python"]
           (map str_lit ["html"; "css"; "javascript"; "sql"; "github";
                         "machine learning"]%string)
           [MISSING_SKILLS_PREFIX
            ++ str_lit "html, css, javascript, sql, github, machine learning";
            TOO_SHORT_MSG]).
  - vm_compute. reflexivity.
  - reflexivity.
  - apply (bool_decide_unpack _). by vm_compute.
  - by exists (str_lit "projects "), [].
  - apply (bool_decide_unpack _). by vm_compute.
  - apply (bool_decide_unpack _). by vm_compute.
Defined.
